(** * minitorch.nn: tiled pooling and dropout

    A shallow embedding of [minitorch/nn.py] ([tile], [avgpool2d],
    [dropout]) with the properties of its specification stated and
    proved against it.

    [nn.py] is written on top of the tensor layer of the package
    ([tensor.py], [tensor_data.py], [tensor_functions.py],
    [operators.py]), which is not among the sources at hand.  Every
    operation of that layer that [nn.py] calls is modelled here from the
    specification, under a comment that starts "Modelled from the
    spec:"; tensors are strided (storage, shape, strides), so that a
    view and its materialization are different things, as sections 3
    and 4.1 of the specification describe them. *)

From Stdlib Require Import QArith Qcanon.
From Stdlib Require Floats Uint63.
From stdpp Require Import base list strings.

(** ** Python exceptions and fallible results *)

Inductive exn : Set :=
  | AssertionError
  | ValueError
  | ZeroDivisionError
  | IndexError
  | AttributeError.

Inductive Result (A : Type) : Type :=
  | Ok (a : A)
  | Err (e : exn).
Arguments Ok {A} a.
Arguments Err {A} e.

#[export] Instance result_ret : MRet Result := fun _ a => Ok a.
#[export] Instance result_bind : MBind Result := fun _ _ k m =>
  match m with
  | Ok a => k a
  | Err e => Err e
  end.

(** [assert c]: the Python statement of the same name. *)
Definition assert (c : bool) : Result unit :=
  if c then Ok tt else Err AssertionError.

(** Python's [a % b] and [a // b] on non-negative integers. *)
Definition py_mod (a b : nat) : Result nat :=
  if b =? 0 then Err ZeroDivisionError else Ok (a mod b).

Definition py_floordiv (a b : nat) : Result nat :=
  if b =? 0 then Err ZeroDivisionError else Ok (a / b).

(** ** Scalars

    The element type of a tensor and the arithmetic of its backend.  The
    module under study never looks inside a scalar: it only asks the
    backend to add, multiply, divide and compare. *)

Class Scalar (F : Type) := {
  zero : F;
  one : F;
  add : F -> F -> F;
  sub : F -> F -> F;
  mul : F -> F -> F;
  div : F -> F -> F;
  ltb : F -> F -> bool;
  leb : F -> F -> bool;
  eqb : F -> F -> bool;
  of_nat : nat -> F
}.

(** The three comparisons of a backend describe one order, in which
    0 is not above 1. *)
Class OrderLaws (F : Type) `{Scalar F} : Prop := {
  ltb_eqb a b : ltb a b = true -> eqb a b = false /\ eqb b a = false;
  leb_ltb a b : leb a b = true -> ltb b a = false;
  ltb_leb_trans a b c : ltb a b = true -> leb b c = true -> ltb a c = true;
  leb_zero_one : leb zero one = true
}.

(** ** Index arithmetic of the tensor layer *)

(** Modelled from the spec: [operators.prod], the element count of a
    shape ("total element count", section 3). *)
Definition prod (shape : list nat) : nat := foldr Nat.mul 1 shape.

(** Modelled from the spec: [strides_from_shape], the strides of the
    row-major layout "whose element order matches its logical shape"
    (section 4.1, step 3). *)
Fixpoint strides_from_shape (shape : list nat) : list nat :=
  match shape with
  | [] => []
  | _ :: rest => prod rest :: strides_from_shape rest
  end.

(** Modelled from the spec: [index_to_position], the storage position
    of a multi-index under given strides. *)
Fixpoint index_to_position (index strides : list nat) : nat :=
  match index, strides with
  | i :: index', s :: strides' => i * s + index_to_position index' strides'
  | _, _ => 0
  end.

(** Modelled from the spec: [to_index], the multi-index of an ordinal
    in row-major order. *)
Fixpoint to_index (ordinal : nat) (shape : list nat) : list nat :=
  match shape with
  | [] => []
  | s :: rest =>
      (ordinal / prod rest) mod s :: to_index (ordinal mod prod rest) rest
  end.

(** Modelled from the spec: a multi-index addresses an element of a
    shape when it has one entry per axis, each below the axis size. *)
Definition in_bounds (index shape : list nat) : Prop :=
  Forall2 lt index shape.

Definition in_boundsb (index shape : list nat) : bool :=
  (length index =? length shape) &&
  forallb (fun p => fst p <? snd p) (zip index shape).

Section Tensors.
Context {F : Type} `{SF : Scalar F}.

(** Modelled from the spec: the [Tensor] of the tensor layer, "an
    N-dimensional array with a shape"; a view shares the storage of its
    source and differs in shape and strides (section 3). *)
Record Tensor : Type := mkTensor {
  storage : list F;
  shape : list nat;
  strides : list nat
}.

(** Modelled from the spec: [Tensor.size], the element count. *)
Definition size (t : Tensor) : nat := prod (shape t).

(** Modelled from the spec: [Tensor.make], a tensor in row-major layout
    over a given storage. *)
Definition make (st : list F) (sh : list nat) : Tensor :=
  mkTensor st sh (strides_from_shape sh).

(** Modelled from the spec: the layout is contiguous when the element
    order of the storage "matches its logical shape". *)
Definition is_contiguous (t : Tensor) : bool :=
  bool_decide (strides t = strides_from_shape (shape t)).

(** Modelled from the spec: the element a backend kernel reads at a
    multi-index.  Kernels do no bounds check; a position outside the
    storage, which no well-formed tensor has, reads as 0. *)
Definition read (t : Tensor) (index : list nat) : F :=
  default zero (storage t !! index_to_position index (strides t)).

(** Modelled from the spec: [t[index]], with the bounds check of the
    tensor layer. *)
Definition get (t : Tensor) (index : list nat) : option F :=
  if in_boundsb index (shape t)
  then storage t !! index_to_position index (strides t)
  else None.

(** Modelled from the spec: [Tensor.view], "a pure reinterpretation of a
    contiguous layout" (section 4.1, step 1): it needs a contiguous
    source and a shape of the same element count, and shares storage. *)
Definition view (t : Tensor) (sh : list nat) : Result Tensor :=
  _ ← assert (is_contiguous t);
  _ ← assert (length (storage t) =? prod sh);
  Ok (make (storage t) sh).

(** Modelled from the spec: [Tensor.permute], which reorders the axes
    and leaves the storage alone ("permutation alone does not rearrange
    underlying storage"); [order] has to name every axis once. *)
Definition is_permutation (order : list nat) (n : nat) : bool :=
  (length order =? n) &&
  forallb (fun i => existsb (Nat.eqb i) order) (seq 0 n).

Definition permute (t : Tensor) (order : list nat) : Result Tensor :=
  _ ← assert (is_permutation order (length (shape t)));
  Ok (mkTensor (storage t)
        ((fun o => default 0 (shape t !! o)) <$> order)
        ((fun o => default 0 (strides t !! o)) <$> order)).

(** Modelled from the spec: [Tensor.contiguous], "materialize": a new
    storage holding the elements in logical (row-major) order. *)
Definition contiguous (t : Tensor) : Tensor :=
  make ((fun o => read t (to_index o (shape t))) <$> seq 0 (size t))
       (shape t).

(** Modelled from the spec: elementwise kernels.  The result is a fresh
    row-major tensor of the operand's shape, filled per logical index. *)
Definition tmap (f : F -> F) (t : Tensor) : Tensor :=
  make ((fun o => f (read t (to_index o (shape t)))) <$> seq 0 (size t))
       (shape t).

Definition tzip (f : F -> F -> F) (a b : Tensor) : Result Tensor :=
  _ ← assert (bool_decide (shape a = shape b));
  Ok (make ((fun o => f (read a (to_index o (shape a)))
                        (read b (to_index o (shape b))))
              <$> seq 0 (size a))
           (shape a)).

(** Modelled from the spec: [Tensor.sum(dim)], "axis reduction": the
    reduced axis stays in the shape with size 1 (sections 4.3 and 4.4:
    "that axis reduced (size 1, typically squeezed by callers)"); each
    output element is the left-to-right sum, from 0, along the axis. *)
Definition sum (t : Tensor) (dim : nat) : Result Tensor :=
  match shape t !! dim with
  | None => Err IndexError
  | Some n =>
      let out_shape := <[dim := 1]> (shape t) in
      Ok (make
            ((fun o =>
                foldl (fun acc j =>
                         add acc (read t (<[dim := j]> (to_index o out_shape))))
                      zero (seq 0 n))
               <$> seq 0 (prod out_shape))
            out_shape)
  end.

(** Modelled from the spec: [tensor / c], [tensor > c] for a Python
    number [c], and [Tensor.zeros]. *)
Definition truediv (t : Tensor) (c : F) : Tensor :=
  tmap (fun x => div x c) t.

Definition gt (t : Tensor) (c : F) : Tensor :=
  tmap (fun x => if ltb c x then one else zero) t.

Definition zeros (sh : list nat) : Tensor :=
  make (replicate (prod sh) zero) sh.

(** Modelled from the spec: [rand], "a uniform-random tensor
    constructor".  The generator is the state of the surrounding
    process: a stream of draws and the number already consumed. *)
Record RNG : Type := mkRNG {
  draw : nat -> F;
  consumed : nat
}.

Definition rand (sh : list nat) (g : RNG) : Tensor * RNG :=
  (make (draw g <$> seq (consumed g) (prod sh)) sh,
   mkRNG (draw g) (consumed g + prod sh)).

(** ** The module [minitorch.nn] *)

(** [tile]: reshape an image tensor for 2D pooling. *)
Definition tile (input : Tensor) (kernel : nat * nat)
  : Result (Tensor * nat * nat) :=
  match shape input with
  | [batch; channel; height; width] =>
      let '(kh, kw) := kernel in
      r ← py_mod height kh;
      _ ← assert (r =? 0);
      r ← py_mod width kw;
      _ ← assert (r =? 0);
      new_height ← py_floordiv height kh;
      new_width ← py_floordiv width kw;
      t ← view input [batch; channel; new_height; kh; new_width; kw];
      let t := contiguous t in
      t ← permute t [0; 1; 2; 4; 3; 5];
      let t := contiguous t in
      t ← view t [batch; channel; new_height; new_width; kh * kw];
      Ok (t, new_height, new_width)
  | _ => Err ValueError
  end.

(** [avgpool2d]: tiled average pooling. *)
Definition avgpool2d (input : Tensor) (kernel : nat * nat) : Result Tensor :=
  '(tiled, new_height, new_width) ← tile input kernel;
  let '(kh, kw) := kernel in
  let pool_area := kh * kw in
  s ← sum tiled 4;
  Ok (truediv s (of_nat pool_area)).

(** [dropout]: the generator is threaded explicitly; it is advanced only
    on the path that draws noise. *)
Definition dropout (input : Tensor) (p : F) (train ignore : bool) (g : RNG)
  : Result Tensor * RNG :=
  if ignore || negb train || eqb p zero then (Ok input, g)
  else if eqb p one then (Ok (zeros (shape input)), g)
  else
    let '(noise, g') := rand (shape input) g in
    let mask := gt noise p in
    (m ← tzip mul input mask; Ok (truediv m (sub one p)), g').

End Tensors.

Arguments Tensor F : clear implicits.
Arguments RNG F : clear implicits.

Section Geometry.
Context {F : Type} `{SF : Scalar F}.

(** A tensor as [tile] expects it (section 1: the "memory-contiguous
    layout" of the 4-D input): row-major strides and one storage cell
    per element. *)
Definition contiguous_tensor (t : Tensor F) : Prop :=
  strides t = strides_from_shape (shape t) /\
  length (storage t) = prod (shape t).

(** The [kh] by [kw] window [input[b, c, i*kh:(i+1)*kh, j*kw:(j+1)*kw]],
    flattened in row-major order. *)
Definition window (input : Tensor F) (kernel : nat * nat) (b c i j : nat)
  : list (option F) :=
  let '(kh, kw) := kernel in
  r ← seq 0 kh;
  s ← seq 0 kw;
  [get input [b; c; i * kh + r; j * kw + s]].


End Geometry.

(** ** What the module binds

    The top-level names of [nn.py] in the order the file binds them:
    its imports and its [def]s. *)
Inductive binding : Set :=
  | Imported (source : string)
  | Def (params : list string).

Definition nn_namespace : list (string * binding) :=
  [ ("Tuple", Imported "typing");
    ("operators", Imported ".");
    ("Context", Imported ".autodiff");
    ("FastOps", Imported ".fast_ops");
    ("Tensor", Imported ".tensor");
    ("Function", Imported ".tensor_functions");
    ("rand", Imported ".tensor_functions");
    ("tensor", Imported ".tensor_functions");
    ("tile", Def ["input"; "kernel"]);
    ("avgpool2d", Def ["input"; "kernel"]);
    ("dropout", Def ["input"; "p"; "train"; "ignore"]) ]%string.

(** [getattr(minitorch.nn, name)]. *)
Definition getattr (name : string) : Result binding :=
  match list_find (fun p => fst p = name) nn_namespace with
  | Some (_, (_, b)) => Ok b
  | None => Err AttributeError
  end.

(** The functions the header comment of [nn.py] announces ("List of
    functions in this file"). *)
Definition announced : list string :=
  [ "avgpool2d"; "argmax"; "Max"; "max"; "softmax"; "logsoftmax";
    "maxpool2d"; "dropout" ]%string.

(** Whether the module exposes a name, and the announced functions it
    does not expose. *)
Definition exposes (name : string) : bool :=
  match getattr name with
  | Ok _ => true
  | Err _ => false
  end.

Definition missing : list string :=
  List.filter (fun name => negb (exposes name)) announced.

(** ** Exact rational arithmetic as a backend *)

Definition Qc_ltb (x y : Qc) : bool :=
  match (x ?= y)%Qc with Lt => true | _ => false end.

Definition Qc_leb (x y : Qc) : bool :=
  match (x ?= y)%Qc with Gt => false | _ => true end.

Fixpoint Qc_of_nat (n : nat) : Qc :=
  match n with
  | O => 0%Qc
  | S n' => (Qc_of_nat n' + 1)%Qc
  end.

#[export] Instance Qc_scalar : Scalar Qc := {|
  zero := 0%Qc;
  one := 1%Qc;
  add := Qcplus;
  sub := Qcminus;
  mul := Qcmult;
  div := Qcdiv;
  ltb := Qc_ltb;
  leb := Qc_leb;
  eqb := Qc_eq_bool;
  of_nat := Qc_of_nat
|}.

(** Small tensors used as concrete inputs. *)
Definition ramp (n : nat) : list Qc := Qc_of_nat <$> seq 0 n.

Definition image (sh : list nat) : Tensor Qc :=
  make (ramp (prod sh)) sh.

(** A generator whose first draw is 1/4 and whose later draws are 3/4. *)
Definition quarters : RNG Qc :=
  mkRNG (fun k => if k =? 0 then Q2Qc (1 # 4) else Q2Qc (3 # 4)) 0.


(** The shape and the values, in storage order, of a computed tensor. *)
Definition observe (r : Result (Tensor Qc)) : option (list nat * list Q) :=
  match r with
  | Ok t => Some (shape t, this <$> storage t)
  | Err _ => None
  end.

(** The 2x2 ramp seen through a permutation of its two spatial axes: a
    view over the same storage that is not contiguous. *)
Definition transposed : Tensor Qc :=
  mkTensor (ramp 4) [1; 1; 2; 2] [4; 4; 1; 2].

(** The 4x4 ramp with everything outside its top-left 2x2 window set
    to 0. *)
Definition corner : Tensor Qc :=
  make ((fun o => if existsb (Nat.eqb o) [0; 1; 4; 5]
                  then Qc_of_nat o else 0%Qc) <$> seq 0 16)
       [1; 1; 4; 4].


(** ** IEEE binary64 arithmetic as a backend

    The element type of the package: Python floats. *)
Definition float_scalar : Scalar PrimFloat.float := {|
  zero := PrimFloat.zero;
  one := PrimFloat.one;
  add := PrimFloat.add;
  sub := PrimFloat.sub;
  mul := PrimFloat.mul;
  div := PrimFloat.div;
  ltb := PrimFloat.ltb;
  leb := PrimFloat.leb;
  eqb := PrimFloat.eqb;
  of_nat n := PrimFloat.of_uint63 (Uint63.of_Z (Z.of_nat n))
|}.

(** 0.5 and 0.25 as floats, a generator whose every draw is 0.25, and
    the tensor [[inf, 3.0]]. *)
Definition float_half : PrimFloat.float :=
  PrimFloat.div PrimFloat.one PrimFloat.two.

Definition float_quarter : PrimFloat.float :=
  PrimFloat.mul float_half float_half.

Definition low_noise : RNG PrimFloat.float :=
  mkRNG (fun _ => float_quarter) 0.

Definition unbounded : Tensor PrimFloat.float :=
  make [PrimFloat.infinity;
        PrimFloat.add PrimFloat.two PrimFloat.one] [2].

(** The element of a computed tensor at a multi-index, if there is one. *)
Definition element {F : Type} (r : Result (Tensor F)) (index : list nat)
  : option F :=
  match r with
  | Ok t => get t index
  | Err _ => None
  end.

(** ** Index arithmetic *)

Lemma prod_cons s rest : prod (s :: rest) = s * prod rest.
Proof. reflexivity. Qed.

Lemma in_boundsb_spec index sh :
  in_boundsb index sh = true <-> in_bounds index sh.
Proof.
  unfold in_boundsb, in_bounds. revert sh.
  induction index as [|i index IH]; intros [|s sh]; simpl.
  - split; [constructor | done].
  - split; [done | inversion 1].
  - split; [done | inversion 1].
  - split.
    + intros [Hl [Hi Hr]%andb_true_iff]%andb_true_iff.
      constructor; [by apply Nat.ltb_lt|].
      apply IH. by rewrite Hl, Hr.
    + inversion 1 as [|? ? ? ? Hi Hr]; subst.
      apply IH in Hr as [Hl Hr]%andb_true_iff.
      apply Nat.ltb_lt in Hi. by rewrite Hl, Hi, Hr.
Qed.

Lemma index_to_position_lt index sh :
  in_bounds index sh ->
  index_to_position index (strides_from_shape sh) < prod sh.
Proof.
  induction 1 as [|i s index sh Hi _ IH]; simpl; [lia|].
  fold (prod sh). nia.
Qed.

Lemma to_index_position index sh :
  in_bounds index sh ->
  to_index (index_to_position index (strides_from_shape sh)) sh = index.
Proof.
  induction 1 as [|i s index sh Hi Hb IH]; simpl; [done|].
  fold (prod sh). apply index_to_position_lt in Hb.
  set (p := index_to_position index (strides_from_shape sh)) in *.
  assert (Hq : (i * prod sh + p) / prod sh = i).
  { symmetry. apply Nat.div_unique with p; lia. }
  assert (Hr : (i * prod sh + p) mod prod sh = p).
  { symmetry. apply Nat.mod_unique with i; lia. }
  rewrite Hq, Hr, IH. by rewrite Nat.mod_small.
Qed.

(** ** The tiling pipeline *)

Section TileFacts.
Context {F : Type} `{SF : Scalar F}.
Implicit Types (t input : Tensor F).

Lemma contiguous_storage_lookup t index :
  in_bounds index (shape t) ->
  storage (contiguous t)
    !! index_to_position index (strides_from_shape (shape t))
  = Some (read t index).
Proof.
  intros Hb. unfold contiguous, make, size; simpl.
  rewrite list_lookup_fmap, lookup_seq_lt by (by apply index_to_position_lt).
  simpl. by rewrite to_index_position.
Qed.

Lemma py_mod_exact n k : 0 < k -> py_mod (n * k) k = Ok 0.
Proof.
  intros Hk. unfold py_mod.
  destruct (Nat.eqb_spec k 0); [lia|]. by rewrite Nat.Div0.mod_mul.
Qed.

Lemma py_floordiv_exact n k : 0 < k -> py_floordiv (n * k) k = Ok n.
Proof.
  intros Hk. unfold py_floordiv.
  destruct (Nat.eqb_spec k 0); [lia|]. by rewrite Nat.div_mul by lia.
Qed.

Lemma view_ok t sh :
  contiguous_tensor t -> prod sh = prod (shape t) ->
  view t sh = Ok (make (storage t) sh).
Proof.
  intros [Hs Hl] Hp. unfold view, is_contiguous.
  rewrite bool_decide_true by done. simpl.
  rewrite Hl, Hp, Nat.eqb_refl. done.
Qed.

Lemma contiguous_is_contiguous t : contiguous_tensor (contiguous t).
Proof.
  split; [done|]. unfold contiguous, make, size; simpl.
  by rewrite length_fmap, length_seq.
Qed.

Lemma bind_Ok {A B} (a : A) (k : A -> Result B) : Ok a ≫= k = k a.
Proof. reflexivity. Qed.

Lemma permute_window_axes t a b c d e f sa sb sc sd se sf :
  shape t = [a; b; c; d; e; f] ->
  strides t = [sa; sb; sc; sd; se; sf] ->
  permute t [0; 1; 2; 4; 3; 5]
  = Ok (mkTensor (storage t) [a; b; c; e; d; f] [sa; sb; sc; se; sd; sf]).
Proof. intros Hs Hst. unfold permute. rewrite Hs, Hst. reflexivity. Qed.

Lemma get_contiguous_tensor t index :
  contiguous_tensor t -> in_bounds index (shape t) ->
  exists x, get t index = Some x /\ read t index = x.
Proof.
  intros [Hst Hl] Hb. unfold get, read.
  rewrite (proj2 (in_boundsb_spec _ _)) by done.
  destruct (lookup_lt_is_Some_2 (storage t)
              (index_to_position index (strides t))) as [x Hx].
  { rewrite Hst, Hl. by apply index_to_position_lt. }
  exists x. by rewrite Hx.
Qed.

Lemma tile_run input B C nh nw kh kw :
  shape input = [B; C; nh * kh; nw * kw] ->
  contiguous_tensor input ->
  0 < kh -> 0 < kw ->
  exists tiled,
    tile input (kh, kw) = Ok (tiled, nh, nw) /\
    shape tiled = [B; C; nh; nw; kh * kw] /\
    contiguous_tensor tiled /\
    forall b c i j r s,
      b < B -> c < C -> i < nh -> j < nw -> r < kh -> s < kw ->
      exists x,
        get tiled [b; c; i; j; r * kw + s] = Some x /\
        get input [b; c; i * kh + r; j * kw + s] = Some x.
Proof.
  intros Hsh Hc Hkh Hkw.
  set (V := make (storage input) [B; C; nh; kh; nw; kw]).
  set (P := mkTensor (storage (contiguous V)) [B; C; nh; nw; kh; kw]
              [C * (nh * (kh * (nw * (kw * 1)))); nh * (kh * (nw * (kw * 1)));
               kh * (nw * (kw * 1)); kw * 1; nw * (kw * 1); 1]).
  set (T := make (storage (contiguous P)) [B; C; nh; nw; kh * kw]).
  assert (HV : contiguous_tensor V).
  { split; [done|]. unfold V, make; cbn [storage shape].
    destruct Hc as [_ ->]. rewrite Hsh. simpl. lia. }
  assert (HT : contiguous_tensor T).
  { split; [done|]. unfold T. simpl.
    rewrite length_fmap, length_seq. unfold size. simpl. lia. }
  exists T. split; [|split; [done|split; [done|]]].
  - unfold tile. rewrite Hsh.
    rewrite py_mod_exact, bind_Ok by done. change (assert (0 =? 0)) with (Ok tt).
    rewrite bind_Ok, py_mod_exact, bind_Ok by done.
    change (assert (0 =? 0)) with (Ok tt).
    rewrite bind_Ok, !py_floordiv_exact, !bind_Ok by done.
    rewrite (view_ok input); [|done|rewrite Hsh; simpl; lia].
    rewrite bind_Ok. fold V.
    rewrite (permute_window_axes (contiguous V)
               B C nh kh nw kw
               (C * (nh * (kh * (nw * (kw * 1))))) (nh * (kh * (nw * (kw * 1))))
               (kh * (nw * (kw * 1))) (nw * (kw * 1)) (kw * 1) 1)
      by reflexivity.
    rewrite bind_Ok. fold P.
    rewrite (view_ok (contiguous P));
      [|apply contiguous_is_contiguous|simpl; lia].
    reflexivity.
  - intros b c i j r s Hb Hci Hi Hj Hr Hs.
    destruct (get_contiguous_tensor input [b; c; i * kh + r; j * kw + s])
      as (x & Hget & Hread); [done| |].
    { rewrite Hsh. repeat constructor; nia. }
    exists x. split; [|done].
    unfold get. rewrite (proj2 (in_boundsb_spec _ _))
      by (repeat constructor; nia).
    replace (index_to_position [b; c; i; j; r * kw + s] (strides T))
      with (index_to_position [b; c; i; j; r; s]
              (strides_from_shape (shape P))) by (simpl; lia).
    unfold T, make; cbn [storage].
    rewrite contiguous_storage_lookup by (repeat constructor; lia).
    f_equal. rewrite <- Hread. unfold read at 1.
    replace (index_to_position [b; c; i; j; r; s] (strides P))
      with (index_to_position [b; c; i; r; j; s]
              (strides_from_shape (shape V))) by (simpl; lia).
    unfold P; cbn [storage].
    rewrite contiguous_storage_lookup by (repeat constructor; lia).
    cbn [default]. unfold read, V, make; cbn [storage strides].
    destruct Hc as [-> _]. rewrite Hsh. simpl.
    match goal with
    | |- default _ (_ !! ?p) = default _ (_ !! ?q) =>
        replace p with q by lia
    end.
    reflexivity.
Qed.

End TileFacts.

(** Row-major flattening of a [kh] by [kw] grid: entry [k] of the flat
    list is the grid entry [(k / kw, k mod kw)]. *)
Lemma grid_flatten {A} (g : nat -> nat -> A) kh kw :
  0 < kw ->
  (r ← seq 0 kh; s ← seq 0 kw; [g r s])
  = (fun k => g (k / kw) (k mod kw)) <$> seq 0 (kh * kw).
Proof.
  intros Hkw. induction kh as [|kh IH]; [done|].
  rewrite seq_S, bind_app, IH. simpl plus.
  replace (S kh * kw) with (kh * kw + kw) by lia.
  rewrite seq_app, fmap_app. f_equal. simpl.
  rewrite app_nil_r.
  replace (seq (kh * kw) kw) with (Nat.add (kh * kw) <$> seq 0 kw)
    by (rewrite fmap_add_seq; f_equal; lia).
  rewrite <- list_fmap_compose.
  assert (Hrow : forall l : list nat,
             l ≫= (fun s => [g kh s]) = g kh <$> l).
  { induction l as [|x l IHl]; [done|]. rewrite bind_cons, IHl. done. }
  rewrite Hrow. apply Forall_fmap_ext, Forall_seq. intros s Hs. simpl.
  f_equal.
  - apply Nat.div_unique with s; lia.
  - apply Nat.mod_unique with kh; lia.
Qed.

Section TileClaims.
Context {F : Type} `{SF : Scalar F}.
Implicit Types (t input : Tensor F).

Lemma divisible_exact n k : 0 < k -> n mod k = 0 -> n = n / k * k.
Proof.
  intros Hk Hm. pose proof (Nat.div_mod_eq n k). lia.
Qed.



End TileClaims.

(** ** Elementwise kernels and reductions *)

Section KernelFacts.
Context {F : Type} `{SF : Scalar F}.
Implicit Types (t input : Tensor F).

Lemma lookup_tabulate {A} (f : nat -> A) sh index :
  in_bounds index sh ->
  (f <$> seq 0 (prod sh)) !! index_to_position index (strides_from_shape sh)
  = Some (f (index_to_position index (strides_from_shape sh))).
Proof.
  intros Hb. by rewrite list_lookup_fmap, lookup_seq_lt
    by (by apply index_to_position_lt).
Qed.

Lemma get_read t index x : get t index = Some x -> read t index = x.
Proof.
  unfold get, read. destruct (in_boundsb index (shape t)); [|done].
  by intros ->.
Qed.

Lemma get_in_bounds t index x :
  get t index = Some x -> in_bounds index (shape t).
Proof.
  unfold get. destruct (in_boundsb index (shape t)) eqn:Hb; [|done].
  intros _. by apply in_boundsb_spec.
Qed.

Lemma get_tabulate (f : nat -> F) sh index :
  in_bounds index sh ->
  get (make (f <$> seq 0 (prod sh)) sh) index
  = Some (f (index_to_position index (strides_from_shape sh))).
Proof.
  intros Hb. unfold get, make; cbn [shape storage strides].
  rewrite (proj2 (in_boundsb_spec _ _)) by done.
  by apply lookup_tabulate.
Qed.

Lemma get_tmap f t index :
  in_bounds index (shape t) ->
  get (tmap f t) index = Some (f (read t index)).
Proof.
  intros Hb. unfold tmap, size. rewrite get_tabulate by done.
  by rewrite to_index_position.
Qed.

Lemma shape_tmap f t : shape (tmap f t) = shape t.
Proof. reflexivity. Qed.

Lemma get_rand sh (g : RNG F) index :
  in_bounds index sh ->
  get (rand sh g).1 index
  = Some (draw g (consumed g
                  + index_to_position index (strides_from_shape sh))).
Proof.
  intros Hb. unfold rand, get, make; cbn [fst shape storage strides].
  rewrite (proj2 (in_boundsb_spec _ _)) by done.
  by rewrite list_lookup_fmap, lookup_seq_lt
    by (by apply index_to_position_lt).
Qed.

Lemma sum_run t dim n :
  shape t !! dim = Some n ->
  exists out,
    sum t dim = Ok out /\
    shape out = <[dim := 1]> (shape t) /\
    forall index,
      in_bounds index (<[dim := 1]> (shape t)) ->
      get out index
      = Some (foldl (fun acc j => add acc (read t (<[dim := j]> index)))
                    zero (seq 0 n)).
Proof.
  intros Hn. unfold sum. rewrite Hn. eexists. split; [done|].
  split; [done|]. intros index Hb.
  rewrite get_tabulate by done. by rewrite to_index_position.
Qed.

Lemma avgpool2d_run input B C nh nw kh kw :
  shape input = [B; C; nh * kh; nw * kw] ->
  contiguous_tensor input ->
  0 < kh -> 0 < kw ->
  exists out,
    avgpool2d input (kh, kw) = Ok out /\
    shape out = [B; C; nh; nw; 1] /\
    forall b c i j,
      b < B -> c < C -> i < nh -> j < nw ->
      exists ws,
        window input (kh, kw) b c i j = Some <$> ws /\
        get out [b; c; i; j; 0]
        = Some (div (foldl add zero ws) (of_nat (kh * kw))).
Proof.
  intros Hsh Hc Hkh Hkw.
  destruct (tile_run input _ _ _ _ _ _ Hsh Hc Hkh Hkw)
    as (tiled & Hrun & Hshape & Hct & Hel).
  destruct (sum_run tiled 4 (kh * kw)) as (s & Hsum & Hss & Hget).
  { by rewrite Hshape. }
  rewrite Hshape in Hss, Hget. cbn [insert list_insert] in Hss, Hget.
  exists (truediv s (of_nat (kh * kw))). split; [|split].
  - unfold avgpool2d. rewrite Hrun, bind_Ok. cbv beta iota.
    by rewrite Hsum, bind_Ok.
  - unfold truediv. by rewrite shape_tmap.
  - intros b c i j Hb Hci Hi Hj.
    exists ((fun k => read tiled [b; c; i; j; k]) <$> seq 0 (kh * kw)).
    split.
    + unfold window.
      rewrite (grid_flatten
                 (fun r s => get input [b; c; i * kh + r; j * kw + s]))
        by done.
      rewrite <- list_fmap_compose.
      apply Forall_fmap_ext, Forall_seq. intros k [_ Hlt]. simpl.
      assert (Hr : k / kw < kh) by (apply Nat.Div0.div_lt_upper_bound; lia).
      assert (Hs : k mod kw < kw) by (apply Nat.mod_upper_bound; lia).
      destruct (Hel b c i j (k / kw) (k mod kw)) as (x & Ht & ->); try done.
      replace (k / kw * kw + k mod kw) with k in Ht
        by (pose proof (Nat.div_mod_eq k kw); lia).
      by rewrite (get_read _ _ _ Ht).
    + unfold truediv. rewrite get_tmap
        by (rewrite Hss; repeat constructor; lia).
      rewrite (get_read _ _ _ (Hget [b; c; i; j; 0]
                 ltac:(repeat constructor; lia))).
      by rewrite foldl_fmap.
Qed.

End KernelFacts.

(** ** Average pooling *)

Section PoolClaims.
Context {F : Type} `{SF : Scalar F}.
Implicit Types (t input : Tensor F).






(** C1: the shape of the tensor [avgpool2d] returns.  The reduced
    window axis is still there, with size 1: the result is 5-D, not the
    4-D (batch, channel, height/kh, width/kw) the docstring and the
    comment above the return ("then squeeze that dimension") announce. *)
Theorem avgpool2d_shape input batch channel height width kh kw :
  shape input = [batch; channel; height; width] ->
  contiguous_tensor input ->
  0 < kh -> 0 < kw ->
  height mod kh = 0 -> width mod kw = 0 ->
  exists out,
    avgpool2d input (kh, kw) = Ok out /\
    shape out = [batch; channel; height / kh; width / kw; 1] /\
    shape out <> [batch; channel; height / kh; width / kw].
Proof.
  intros Hsh Hc Hkh Hkw Hh Hw.
  rewrite (divisible_exact height kh), (divisible_exact width kw) in Hsh
    by done.
  destruct (avgpool2d_run input _ _ _ _ _ _ Hsh Hc Hkh Hkw)
    as (out & Hrun & Hshape & _).
  exists out. rewrite Hshape. done.
Qed.


(** C6: [avgpool2d(input, (1, 1))] on a 4-D input.  Its values are the
    input's, each passed through [(0 + x) / 1], but its shape carries
    the size-1 window axis, so the result is not the input. *)
Theorem avgpool2d_unit_kernel input batch channel height width :
  shape input = [batch; channel; height; width] ->
  contiguous_tensor input ->
  exists out,
    avgpool2d input (1, 1) = Ok out /\
    shape out = [batch; channel; height; width; 1] /\
    out <> input /\
    forall b c i j,
      b < batch -> c < channel -> i < height -> j < width ->
      exists x,
        get input [b; c; i; j] = Some x /\
        get out [b; c; i; j; 0] = Some (div (add zero x) (of_nat 1)).
Proof.
  intros Hsh Hc.
  rewrite <- (Nat.mul_1_r height), <- (Nat.mul_1_r width) in Hsh.
  destruct (avgpool2d_run input _ _ _ _ 1 1 Hsh Hc) as (out & Hrun & Hshape & Hel);
    [lia..|].
  exists out. split; [done|]. split; [done|]. split.
  { intros ->. rewrite Hsh in Hshape. done. }
  intros b c i j Hb Hci Hi Hj.
  destruct (Hel b c i j) as (ws & Hwin & Hget); try done.
  unfold window in Hwin. cbn in Hwin.
  rewrite !Nat.mul_1_r, !Nat.add_0_r in Hwin.
  destruct ws as [|x [|y ws]]; try done.
  injection Hwin as Hwin. exists x. split; [done|]. by rewrite Hget.
Qed.

End PoolClaims.

(** ** The precondition of [tile] *)

Section Precondition.
Context {F : Type} `{SF : Scalar F}.
Implicit Types (t input : Tensor F).


End Precondition.

(** ** Dropout *)

Section DropoutClaims.
Context {F : Type} `{SF : Scalar F}.
Implicit Types (t x : Tensor F).

Lemma get_zeros sh index :
  in_bounds index sh -> get (zeros sh) index = Some (zero : F).
Proof.
  intros Hb. unfold zeros, get, make; cbn [shape storage strides].
  rewrite (proj2 (in_boundsb_spec _ _)) by done.
  apply lookup_replicate_2. by apply index_to_position_lt.
Qed.

(** The masking path of [dropout], element by element, for any
    backend. *)
Lemma dropout_run x p (g : RNG F) :
  eqb p zero = false -> eqb p one = false ->
  exists out,
    dropout x p true false g = (Ok out, (rand (shape x) g).2) /\
    shape out = shape x /\
    forall index xv nv,
      get x index = Some xv ->
      get (rand (shape x) g).1 index = Some nv ->
      get out index
      = Some (div (mul xv (if ltb p nv then one else zero)) (sub one p)).
Proof.
  intros H0 H1. unfold dropout. cbn [orb negb]. rewrite H0, H1.
  destruct (rand (shape x) g) as [noise g'] eqn:Hrand.
  assert (Hns : shape noise = shape x).
  { unfold rand in Hrand. by injection Hrand as <- _. }
  unfold tzip. rewrite bool_decide_true by exact (eq_sym Hns).
  change (assert true) with (Ok tt). rewrite !bind_Ok.
  eexists. split; [done|]. split; [done|].
  intros index xv nv Hx Hn. cbn [fst] in Hn.
  pose proof (get_in_bounds _ _ _ Hx) as Hb.
  unfold truediv at 1. rewrite get_tmap by done.
  do 2 f_equal.
  erewrite (get_read _ index); [|unfold size; by apply get_tabulate].
  change (shape (gt noise p)) with (shape noise).
  rewrite Hns, !to_index_position by done.
  rewrite (get_read _ _ _ Hx). f_equal.
  erewrite (get_read (gt noise p)); [|apply get_tmap; by rewrite Hns].
  by rewrite (get_read _ _ _ Hn).
Qed.

(** C8: [dropout] returns its input itself whenever [ignore] is true,
    or [train] is false, or [p == 0], whatever the other arguments are;
    otherwise, if [p == 1.0], it returns a zero tensor of the input's
    shape.  Neither path draws from the generator. *)
Theorem dropout_identity x p train ignore (g : RNG F) :
  (ignore = true \/ train = false \/ eqb p zero = true ->
   dropout x p train ignore g = (Ok x, g)) /\
  (ignore = false /\ train = true /\ eqb p zero = false ->
   eqb p one = true ->
   exists z,
     dropout x p train ignore g = (Ok z, g) /\
     shape z = shape x /\
     forall index, in_bounds index (shape x) -> get z index = Some zero).
Proof.
  split.
  - intros [-> | [-> | Hp]]; unfold dropout.
    + done.
    + by rewrite orb_true_r.
    + by rewrite Hp, !orb_true_r.
  - intros (-> & -> & H0) H1. unfold dropout. cbn [orb negb].
    rewrite H0, H1. exists (zeros (shape x)).
    split; [done|]. split; [done|]. apply get_zeros.
Qed.


(** C10: [dropout] does not validate [p]: for [p < 0], [train=True]
    and [ignore=False] no error is raised; the noise being
    non-negative, the mask [noise > p] is 1 at every position and the
    result is [x] scaled elementwise by [1 / (1 - p)]. *)
Theorem dropout_negative_p `{!OrderLaws F} x p (g : RNG F) :
  ltb p zero = true ->
  (forall k, leb zero (draw g k) = true) ->
  exists out,
    dropout x p true false g = (Ok out, (rand (shape x) g).2) /\
    shape out = shape x /\
    (forall index,
       in_bounds index (shape x) ->
       get (gt (rand (shape x) g).1 p) index = Some one) /\
    ((forall v, mul v one = v) ->
     forall index xv,
       get x index = Some xv -> get out index = Some (div xv (sub one p))).
Proof.
  intros Hneg Hnoise.
  assert (Hmask : forall k, ltb p (draw g k) = true).
  { intros k. by apply ltb_leb_trans with zero. }
  destruct (dropout_run x p g) as (out & Hrun & Hshape & Hel).
  { by apply ltb_eqb in Hneg as [? _]. }
  { assert (Hlt : ltb p one = true)
      by (apply ltb_leb_trans with zero; [done | apply leb_zero_one]).
    by apply ltb_eqb in Hlt as [? _]. }
  exists out. split; [done|]. split; [done|]. split.
  - intros index Hb. unfold gt. rewrite get_tmap by done.
    erewrite (get_read _ index); [|by apply get_rand].
    by rewrite Hmask.
  - intros Hmul index xv Hx.
    pose proof (get_in_bounds _ _ _ Hx) as Hb.
    rewrite (Hel index xv _ Hx (get_rand _ g index Hb)).
    by rewrite Hmask, Hmul.
Qed.

End DropoutClaims.

(** ** The module's namespace *)

(** C2: of the functions the header of [nn.py] announces, the module
    binds only [avgpool2d] and [dropout] (and the helper [tile]);
    looking up [maxpool2d], [max] or [argmax] raises
    [AttributeError]. *)
Theorem nn_missing_functions :
  getattr "maxpool2d" = Err AttributeError /\
  getattr "max" = Err AttributeError /\
  getattr "argmax" = Err AttributeError /\
  missing
  = ["argmax"; "Max"; "max"; "softmax"; "logsoftmax"; "maxpool2d"]%string /\
  getattr "tile" = Ok (Def ["input"; "kernel"]%string) /\
  getattr "avgpool2d" = Ok (Def ["input"; "kernel"]%string) /\
  getattr "dropout" = Ok (Def ["input"; "p"; "train"; "ignore"]%string).
Proof. repeat split; vm_compute; reflexivity. Qed.

(** ** Exact rationals satisfy the laws *)

Lemma Qc_ltb_spec (a b : Qc) : Qc_ltb a b = true <-> (a < b)%Qc.
Proof.
  unfold Qc_ltb. rewrite Qclt_alt. by destruct (a ?= b)%Qc.
Qed.

Lemma Qc_leb_spec (a b : Qc) : Qc_leb a b = true <-> (a <= b)%Qc.
Proof.
  unfold Qc_leb. rewrite Qcle_alt. by destruct (a ?= b)%Qc.
Qed.

#[export] Instance Qc_order : OrderLaws Qc.
Proof.
  split.
  - intros a b Hlt%Qc_ltb_spec%Qclt_not_eq.
    change (Qc_eq_bool a b = false /\ Qc_eq_bool b a = false). split.
    + destruct (Qc_eq_bool a b) eqn:He; [|done].
      by apply Qc_eq_bool_correct in He.
    + destruct (Qc_eq_bool b a) eqn:He; [|done].
      by apply Qc_eq_bool_correct in He.
  - intros a b Hle%Qc_leb_spec%Qcle_not_lt.
    change (Qc_ltb b a = false).
    destruct (Qc_ltb b a) eqn:Hlt; [|done].
    by apply Qc_ltb_spec in Hlt.
  - intros a b c Hlt%Qc_ltb_spec Hle%Qc_leb_spec.
    apply Qc_ltb_spec. by apply Qclt_le_trans with b.
  - reflexivity.
Qed.

Lemma Qc_mul_one (v : Qc) : mul v one = v.
Proof. apply Qcmult_1_r. Qed.





Lemma image_contiguous sh : contiguous_tensor (image sh).
Proof.
  split; [done|]. unfold image, ramp, make; cbn [storage shape].
  by rewrite length_fmap, length_seq.
Qed.

(** ** The claims at concrete inputs *)




Lemma avgpool2d_shape_witness :
  exists out,
    avgpool2d (image [1; 1; 2; 2]) (2, 2) = Ok out /\
    shape out = [1; 1; 1; 1; 1] /\
    shape out <> [1; 1; 1; 1].
Proof.
  apply (avgpool2d_shape (image [1; 1; 2; 2]) 1 1 2 2 2 2);
    [reflexivity | apply image_contiguous | lia | lia
    | reflexivity | reflexivity].
Defined.


Lemma avgpool2d_unit_kernel_witness :
  exists out,
    avgpool2d (image [1; 1; 2; 2]) (1, 1) = Ok out /\
    shape out = [1; 1; 2; 2; 1] /\
    out <> image [1; 1; 2; 2] /\
    forall b c i j,
      b < 1 -> c < 1 -> i < 2 -> j < 2 ->
      exists x,
        get (image [1; 1; 2; 2]) [b; c; i; j] = Some x /\
        get out [b; c; i; j; 0] = Some (div (add zero x) (of_nat 1)).
Proof.
  apply (avgpool2d_unit_kernel (image [1; 1; 2; 2]) 1 1 2 2);
    [reflexivity | apply image_contiguous].
Defined.


Lemma dropout_negative_p_witness :
  exists out,
    dropout (image [2]) (Q2Qc (-1 # 1)) true false quarters
    = (Ok out, (rand [2] quarters).2) /\
    get out [1] = Some (div one (sub one (Q2Qc (-1 # 1)))).
Proof.
  destruct (dropout_negative_p (image [2]) (Q2Qc (-1 # 1)) quarters)
    as (out & Hrun & _ & _ & Hel).
  - reflexivity.
  - intros k. unfold quarters; cbn [draw]. by destruct (k =? 0).
  - exists out. split; [exact Hrun|].
    apply (Hel Qc_mul_one [1] one). reflexivity.
Defined.

(** ** Runs of the module on small inputs *)

(** Tiling the 4x4 ramp 0..15 with a 2x2 kernel lists the four windows
    one after the other. *)
Example tile_ramp :
  observe ('(tiled, _, _) ← tile (image [1; 1; 4; 4]) (2, 2); Ok tiled)
  = Some ([1; 1; 2; 2; 4],
          [0; 1; 4; 5; 2; 3; 6; 7; 8; 9; 12; 13; 10; 11; 14; 15]%Q).
Proof. vm_compute. reflexivity. Qed.

(** Average pooling of the same ramp: the four window means, under a
    trailing axis of size 1. *)
Example avgpool2d_ramp :
  observe (avgpool2d (image [1; 1; 4; 4]) (2, 2))
  = Some ([1; 1; 2; 2; 1], [5 # 2; 9 # 2; 21 # 2; 25 # 2]%Q).
Proof. vm_compute. reflexivity. Qed.

(** A 1x1 kernel keeps the values and adds the axis. *)
Example avgpool2d_unit_ramp :
  observe (avgpool2d (image [1; 1; 2; 2]) (1, 1))
  = Some ([1; 1; 2; 2; 1], [0; 1; 2; 3]%Q) /\
  observe (Ok (image [1; 1; 2; 2])) = Some ([1; 1; 2; 2], [0; 1; 2; 3]%Q).
Proof. split; vm_compute; reflexivity. Qed.

(** Dropout with p = 1/2 on [0, 1, 2] under the noise 1/4, 3/4, 3/4:
    the first element is dropped and the others are doubled. *)
Example dropout_half :
  observe (dropout (image [3]) (Q2Qc (1 # 2)) true false quarters).1
  = Some ([3], [0; 2; 4]%Q).
Proof. vm_compute. reflexivity. Qed.

(** The contiguity of the input matters: [view] refuses the transposed
    ramp, whose layout does not match its shape, and so does [tile]. *)
Example tile_transposed :
  permute (image [1; 1; 2; 2]) [0; 1; 3; 2] = Ok transposed /\
  ~ contiguous_tensor transposed /\
  tile transposed (1, 1) = Err AssertionError /\
  observe ('(tiled, _, _) ← tile (contiguous transposed) (1, 1); Ok tiled)
  = Some ([1; 1; 2; 2; 1], [0; 2; 1; 3]%Q).
Proof.
  split; [reflexivity|]. split; [by intros [? _]|].
  split; vm_compute; reflexivity.
Qed.

(** ** When [tile] and [avgpool2d] return *)

Lemma to_index_in_bounds sh ordinal :
  ordinal < prod sh -> in_bounds (to_index ordinal sh) sh.
Proof.
  revert ordinal. induction sh as [|s sh IH]; intros o Ho; simpl.
  - constructor.
  - rewrite prod_cons in Ho. fold (prod sh).
    assert (0 < prod sh) by nia. assert (0 < s) by nia.
    constructor.
    + apply Nat.mod_upper_bound. lia.
    + apply IH. apply Nat.mod_upper_bound. lia.
Qed.

Lemma position_to_index sh ordinal :
  ordinal < prod sh ->
  index_to_position (to_index ordinal sh) (strides_from_shape sh) = ordinal.
Proof.
  revert ordinal. induction sh as [|s sh IH]; intros o Ho; simpl.
  - simpl in Ho. lia.
  - rewrite prod_cons in Ho. fold (prod sh).
    assert (0 < prod sh) by nia.
    rewrite IH by (apply Nat.mod_upper_bound; lia).
    rewrite Nat.mod_small by (apply Nat.Div0.div_lt_upper_bound; lia).
    pose proof (Nat.div_mod_eq o (prod sh)). lia.
Qed.

Lemma bind_Ok_inv {A B} (m : Result A) (k : A -> Result B) b :
  m ≫= k = Ok b -> exists a, m = Ok a /\ k a = Ok b.
Proof. destruct m as [a|e]; [by exists a | done]. Qed.

Lemma assert_Ok_inv c u : assert c = Ok u -> c = true.
Proof. by destruct c. Qed.

Lemma py_mod_Ok_inv a b r : py_mod a b = Ok r -> 0 < b /\ r = a mod b.
Proof.
  unfold py_mod. destruct (Nat.eqb_spec b 0); [done|].
  intros [= <-]. split; [lia | done].
Qed.

Lemma py_floordiv_Ok_inv a b q : py_floordiv a b = Ok q -> q = a / b.
Proof.
  unfold py_floordiv. destruct (Nat.eqb_spec b 0); [done|]. by intros [= <-].
Qed.

Section Returns.
Context {F : Type} `{SF : Scalar F}.
Implicit Types (t input : Tensor F).

Lemma view_Ok_inv t sh t' :
  view t sh = Ok t' ->
  is_contiguous t = true /\ length (storage t) = prod sh /\
  t' = make (storage t) sh.
Proof.
  unfold view. intros (u & Hc%assert_Ok_inv & H)%bind_Ok_inv.
  apply bind_Ok_inv in H as (u' & Hl%assert_Ok_inv & [= <-]).
  by apply Nat.eqb_eq in Hl.
Qed.

Lemma tile_unpack_error input kernel :
  length (shape input) <> 4 -> tile input kernel = Err ValueError.
Proof.
  intros Hlen. unfold tile.
  by destruct (shape input) as [|b [|c [|h [|w [|? ?]]]]].
Qed.

(** What a successful run of [tile] says about its arguments. *)
Lemma tile_Ok_inv input kh kw tiled new_height new_width :
  tile input (kh, kw) = Ok (tiled, new_height, new_width) ->
  exists batch channel height width,
    shape input = [batch; channel; height; width] /\
    0 < kh /\ 0 < kw /\
    height = new_height * kh /\ width = new_width * kw /\
    shape tiled = [batch; channel; new_height; new_width; kh * kw].
Proof.
  unfold tile.
  destruct (shape input) as [|b [|c [|h [|w [|? ?]]]]] eqn:Hsh; try done.
  intros (r1 & [Hkh ->]%py_mod_Ok_inv & H)%bind_Ok_inv.
  apply bind_Ok_inv in H as (u1 & Hh%assert_Ok_inv & H).
  apply bind_Ok_inv in H as (r2 & [Hkw ->]%py_mod_Ok_inv & H).
  apply bind_Ok_inv in H as (u2 & Hw%assert_Ok_inv & H).
  apply bind_Ok_inv in H as (nh & ->%py_floordiv_Ok_inv & H).
  apply bind_Ok_inv in H as (nw & ->%py_floordiv_Ok_inv & H).
  apply bind_Ok_inv in H as (v & _ & H).
  apply bind_Ok_inv in H as (q & _ & H).
  apply bind_Ok_inv in H as (t' & Hv & [= <- <- <-]).
  apply view_Ok_inv in Hv as (_ & _ & ->).
  apply Nat.eqb_eq in Hh, Hw.
  exists b, c, h, w. repeat split; try done.
  - by apply divisible_exact.
  - by apply divisible_exact.
Qed.

(** X1: for a kernel of positive integers, [tile] returns only for a
    4-D input whose height and width the kernel divides exactly: the
    integers it returns multiply back to the input's height and width,
    and the tensor it returns has shape
    (batch, channel, new_height, new_width, kh*kw). *)
Theorem tile_returns_only_when_valid input kh kw tiled new_height new_width :
  0 < kh -> 0 < kw ->
  tile input (kh, kw) = Ok (tiled, new_height, new_width) ->
  exists batch channel,
    shape input = [batch; channel; new_height * kh; new_width * kw] /\
    shape tiled = [batch; channel; new_height; new_width; kh * kw].
Proof.
  intros _ _ (b & c & h & w & Hsh & _ & _ & -> & -> & Ht)%tile_Ok_inv.
  by exists b, c.
Qed.

(** X2: a kernel dimension of 0 is not caught by the assertions of
    [tile]: the remainder itself raises [ZeroDivisionError].  The
    height is examined first, so a zero [kw] goes unnoticed when the
    height is not divisible (the first assertion fails instead). *)
Theorem tile_zero_kernel input batch channel height width kh kw :
  shape input = [batch; channel; height; width] ->
  (kh = 0 -> tile input (kh, kw) = Err ZeroDivisionError) /\
  (0 < kh -> height mod kh = 0 -> kw = 0 ->
   tile input (kh, kw) = Err ZeroDivisionError) /\
  (0 < kh -> height mod kh <> 0 -> kw = 0 ->
   tile input (kh, kw) = Err AssertionError).
Proof.
  intros Hsh. unfold tile, py_mod. rewrite Hsh. repeat split.
  - by intros ->.
  - intros Hkh Hh ->. destruct (Nat.eqb_spec kh 0); [lia|].
    rewrite bind_Ok, Hh. done.
  - intros Hkh Hh ->. destruct (Nat.eqb_spec kh 0); [lia|].
    rewrite bind_Ok. by destruct (Nat.eqb_spec (height mod kh) 0).
Qed.

(** X3: an input that is not 4-D cannot be unpacked into
    (batch, channel, height, width): [tile] raises [ValueError]
    whatever the kernel is, and [avgpool2d] passes the error on. *)
Theorem pooling_needs_4d input kernel :
  length (shape input) <> 4 ->
  tile input kernel = Err ValueError /\
  avgpool2d input kernel = Err ValueError.
Proof.
  intros Ht%(tile_unpack_error input kernel).
  split; [done|]. unfold avgpool2d. by rewrite Ht.
Qed.

(** X4: [avgpool2d] adds no failure of its own: it fails exactly when
    [tile] does, with the same exception, and whenever [tile] returns,
    so does [avgpool2d]. *)
Theorem avgpool2d_fails_as_tile input kernel :
  (forall e, tile input kernel = Err e -> avgpool2d input kernel = Err e) /\
  (forall r, tile input kernel = Ok r ->
     exists out, avgpool2d input kernel = Ok out).
Proof.
  split.
  - intros e He. unfold avgpool2d. by rewrite He.
  - intros [[tiled nh] nw] Hr. destruct kernel as [kh kw].
    pose proof Hr as (b & c & h & w & _ & _ & _ & _ & _ & Ht)%tile_Ok_inv.
    destruct (sum_run tiled 4 (kh * kw)) as (s & Hs & _); [by rewrite Ht|].
    unfold avgpool2d. rewrite Hr, bind_Ok. cbv beta iota.
    rewrite Hs, bind_Ok. by eexists.
Qed.

(** X5: pooling cannot be stacked.  The tensor [avgpool2d] returns
    still has the window axis, so it is 5-D, and a second [avgpool2d]
    (or [tile]) on it raises [ValueError] whatever the kernel is. *)
Theorem avgpool2d_twice input kernel out kernel' :
  avgpool2d input kernel = Ok out ->
  tile out kernel' = Err ValueError /\
  avgpool2d out kernel' = Err ValueError.
Proof.
  intros Hrun. destruct kernel as [kh kw]. unfold avgpool2d in Hrun.
  apply bind_Ok_inv in Hrun as ([[tiled nh] nw] & Ht & Hrun).
  apply tile_Ok_inv in Ht as (b & c & h & w & _ & _ & _ & _ & _ & Ht).
  cbv beta iota in Hrun.
  apply bind_Ok_inv in Hrun as (s & Hs & [= <-]).
  assert (Hshape : shape (truediv s (of_nat (kh * kw))) = [b; c; nh; nw; 1]).
  { unfold sum in Hs. rewrite Ht in Hs. cbn [lookup list_lookup] in Hs.
    by injection Hs as <-. }
  assert (Hout : tile (truediv s (of_nat (kh * kw))) kernel'
                 = Err ValueError).
  { apply tile_unpack_error. by rewrite Hshape. }
  split; [done|]. unfold avgpool2d. by rewrite Hout.
Qed.

End Returns.

(** ** What [tile] does to the storage *)

Lemma list_tabulate_id {A} (l : list A) (d : A) :
  (fun o => default d (l !! o)) <$> seq 0 (length l) = l.
Proof.
  apply list_eq. intros o. rewrite list_lookup_fmap.
  destruct (decide (o < length l)) as [Ho|Ho].
  - rewrite lookup_seq_lt by done. simpl.
    destruct (lookup_lt_is_Some_2 l o Ho) as [x Hx]. by rewrite Hx.
  - rewrite (lookup_ge_None_2 l) by lia.
    by rewrite lookup_ge_None_2 by (rewrite length_seq; lia).
Qed.

(** Reading a list through an injective renumbering of its positions
    rearranges it. *)
Lemma gather_Permutation {A} (l : list A) (rho : nat -> nat) (d : A) :
  (forall o, o < length l -> rho o < length l) ->
  (forall o o', o < length l -> o' < length l -> rho o = rho o' -> o = o') ->
  (fun o => default d (l !! rho o)) <$> seq 0 (length l) ≡ₚ l.
Proof.
  intros Hrange Hinj.
  transitivity ((fun o => default d (l !! o)) <$> seq 0 (length l));
    [|by rewrite list_tabulate_id].
  replace ((fun o => default d (l !! rho o)) <$> seq 0 (length l))
    with ((fun o => default d (l !! o)) <$> (rho <$> seq 0 (length l)))
    by (by rewrite <- list_fmap_compose).
  apply fmap_Permutation.
  apply submseteq_length_Permutation; [|by rewrite length_fmap].
  apply NoDup_submseteq.
  - apply NoDup_fmap_2_strong; [|apply NoDup_seq].
    intros o o' Ho%elem_of_seq Ho'%elem_of_seq. apply Hinj; lia.
  - intros x (o & -> & Ho%elem_of_seq)%list_elem_of_fmap.
    apply elem_of_seq. split; [lia|]. apply Hrange. lia.
Qed.

(** The renumbering [tile] applies: ordinal [o] of the tiled layout
    (batch, channel, new_height, new_width, kh, kw) is read at the
    position of the same element in the layout
    (batch, channel, new_height, kh, new_width, kw). *)
Lemma window_order_spec B C nh nw kh kw o :
  o < prod [B; C; nh; nw; kh; kw] ->
  exists b c i j r s,
    to_index o [B; C; nh; nw; kh; kw] = [b; c; i; j; r; s] /\
    in_bounds [b; c; i; r; j; s] [B; C; nh; kh; nw; kw] /\
    index_to_position (to_index o [B; C; nh; nw; kh; kw])
      [C * (nh * (kh * (nw * (kw * 1)))); nh * (kh * (nw * (kw * 1)));
       kh * (nw * (kw * 1)); kw * 1; nw * (kw * 1); 1]
    = index_to_position [b; c; i; r; j; s]
        (strides_from_shape [B; C; nh; kh; nw; kw]).
Proof.
  intros Ho. pose proof (to_index_in_bounds _ _ Ho) as Hb.
  unfold in_bounds in Hb.
  apply Forall2_cons_inv_r in Hb as (b & l1 & Hb & Hb1 & E1).
  apply Forall2_cons_inv_r in Hb1 as (c & l2 & Hc & Hb2 & ->).
  apply Forall2_cons_inv_r in Hb2 as (i & l3 & Hi & Hb3 & ->).
  apply Forall2_cons_inv_r in Hb3 as (j & l4 & Hj & Hb4 & ->).
  apply Forall2_cons_inv_r in Hb4 as (r & l5 & Hr & Hb5 & ->).
  apply Forall2_cons_inv_r in Hb5 as (s & l6 & Hs & Hb6 & ->).
  apply Forall2_nil_inv_r in Hb6 as ->.
  exists b, c, i, j, r, s. rewrite E1.
  split; [done|]. split; [by repeat constructor|]. simpl. lia.
Qed.

Section Storage.
Context {F : Type} `{SF : Scalar F}.
Implicit Types (t input : Tensor F).

Lemma contiguous_storage_id t :
  contiguous_tensor t -> storage (contiguous t) = storage t.
Proof.
  intros [Hst Hl]. apply list_eq. intros o.
  unfold contiguous, make, size; cbn [storage].
  rewrite list_lookup_fmap.
  destruct (decide (o < prod (shape t))) as [Ho|Ho].
  - rewrite lookup_seq_lt by done. simpl. unfold read.
    rewrite Hst, position_to_index by done.
    destruct (lookup_lt_is_Some_2 (storage t) o) as [x Hx]; [lia|].
    by rewrite Hx.
  - rewrite lookup_ge_None_2 by (rewrite length_seq; lia).
    by rewrite lookup_ge_None_2 by lia.
Qed.

(** The storage of the tensor [tile] returns: the input's storage read
    through the strides of the permuted view. *)
Lemma tile_storage input B C nh nw kh kw :
  shape input = [B; C; nh * kh; nw * kw] ->
  contiguous_tensor input ->
  0 < kh -> 0 < kw ->
  exists tiled,
    tile input (kh, kw) = Ok (tiled, nh, nw) /\
    storage tiled
    = (fun o => default zero
                  (storage input
                   !! index_to_position
                        (to_index o [B; C; nh; nw; kh; kw])
                        [C * (nh * (kh * (nw * (kw * 1))));
                         nh * (kh * (nw * (kw * 1)));
                         kh * (nw * (kw * 1)); kw * 1; nw * (kw * 1); 1]))
        <$> seq 0 (length (storage input)).
Proof.
  intros Hsh Hc Hkh Hkw.
  set (V := make (storage input) [B; C; nh; kh; nw; kw]).
  set (P := mkTensor (storage (contiguous V)) [B; C; nh; nw; kh; kw]
              [C * (nh * (kh * (nw * (kw * 1)))); nh * (kh * (nw * (kw * 1)));
               kh * (nw * (kw * 1)); kw * 1; nw * (kw * 1); 1]).
  assert (HV : contiguous_tensor V).
  { split; [done|]. unfold V, make; cbn [storage shape].
    destruct Hc as [_ ->]. rewrite Hsh. simpl. lia. }
  exists (make (storage (contiguous P)) [B; C; nh; nw; kh * kw]). split.
  - unfold tile. rewrite Hsh.
    rewrite py_mod_exact, bind_Ok by done. change (assert (0 =? 0)) with (Ok tt).
    rewrite bind_Ok, py_mod_exact, bind_Ok by done.
    change (assert (0 =? 0)) with (Ok tt).
    rewrite bind_Ok, !py_floordiv_exact, !bind_Ok by done.
    rewrite (view_ok input); [|done|rewrite Hsh; simpl; lia].
    rewrite bind_Ok. fold V.
    rewrite (permute_window_axes (contiguous V)
               B C nh kh nw kw
               (C * (nh * (kh * (nw * (kw * 1))))) (nh * (kh * (nw * (kw * 1))))
               (kh * (nw * (kw * 1))) (nw * (kw * 1)) (kw * 1) 1)
      by reflexivity.
    rewrite bind_Ok. fold P.
    rewrite (view_ok (contiguous P));
      [|apply contiguous_is_contiguous|simpl; lia].
    reflexivity.
  - unfold make at 1; cbn [storage].
    unfold contiguous at 1, make at 1; cbn [storage].
    replace (size P) with (length (storage input)).
    2:{ destruct Hc as [_ ->]. rewrite Hsh. unfold size, P; cbn [shape].
        simpl. lia. }
    apply list_fmap_ext. intros _ o _.
    unfold read, P; cbn [storage shape strides].
    rewrite (contiguous_storage_id V HV). reflexivity.
Qed.

End Storage.

Section StorageClaims.
Context {F : Type} `{SF : Scalar F}.
Implicit Types (t input : Tensor F).

(** X6: [tile] moves elements and does nothing else: for a contiguous
    input and a valid kernel, the storage of the tiled tensor is a
    permutation of the storage of the input (no element is dropped,
    duplicated or invented). *)
Theorem tile_permutes_storage input batch channel height width kh kw :
  shape input = [batch; channel; height; width] ->
  contiguous_tensor input ->
  0 < kh -> 0 < kw ->
  height mod kh = 0 -> width mod kw = 0 ->
  exists tiled,
    tile input (kh, kw) = Ok (tiled, height / kh, width / kw) /\
    storage tiled ≡ₚ storage input.
Proof.
  intros Hsh Hc Hkh Hkw Hh Hw.
  rewrite (divisible_exact height kh), (divisible_exact width kw) in Hsh
    by done.
  destruct (tile_storage input _ _ _ _ _ _ Hsh Hc Hkh Hkw)
    as (tiled & Hrun & Hst).
  exists tiled. split; [done|]. rewrite Hst.
  assert (Hlen : length (storage input)
                 = prod [batch; channel; height / kh; width / kw; kh; kw]).
  { destruct Hc as [_ ->]. rewrite Hsh. simpl. lia. }
  assert (HlenV : length (storage input)
                  = prod [batch; channel; height / kh; kh; width / kw; kw]).
  { rewrite Hlen. simpl. lia. }
  apply gather_Permutation.
  - intros o Ho. rewrite Hlen in Ho.
    destruct (window_order_spec _ _ _ _ _ _ _ Ho)
      as (b & c & i & j & r & s & _ & Hb & ->).
    rewrite HlenV. by apply index_to_position_lt.
  - intros o o' Ho Ho' Heq. rewrite Hlen in Ho, Ho'.
    destruct (window_order_spec _ _ _ _ _ _ _ Ho)
      as (b & c & i & j & r & s & Hidx & Hb & Hpos).
    destruct (window_order_spec _ _ _ _ _ _ _ Ho')
      as (b' & c' & i' & j' & r' & s' & Hidx' & Hb' & Hpos').
    rewrite Hpos, Hpos' in Heq.
    apply (f_equal (fun p => to_index p
             [batch; channel; height / kh; kh; width / kw; kw])) in Heq.
    rewrite !to_index_position in Heq by done.
    injection Heq as -> -> -> -> -> ->.
    rewrite <- (position_to_index _ _ Ho), <- (position_to_index _ _ Ho').
    by rewrite Hidx, Hidx'.
Qed.

(** X7: when the kernel has height 1, or spans the whole width, the
    windows already lie one after the other in the input: [tile] is
    then a pure reshape, and the tiled tensor has the storage of the
    input, element for element. *)
Theorem tile_keeps_layout input batch channel height width kh kw :
  shape input = [batch; channel; height; width] ->
  contiguous_tensor input ->
  0 < kh -> 0 < kw ->
  height mod kh = 0 -> width mod kw = 0 ->
  kh = 1 \/ kw = width ->
  exists tiled,
    tile input (kh, kw) = Ok (tiled, height / kh, width / kw) /\
    storage tiled = storage input.
Proof.
  intros Hsh Hc Hkh Hkw Hh Hw Hflat.
  assert (Hcase : kh = 1 \/ width / kw = 1).
  { destruct Hflat as [->| ->]; [by left|right]. by apply Nat.div_same, Nat.neq_0_lt_0. }
  rewrite (divisible_exact height kh), (divisible_exact width kw) in Hsh
    by done.
  destruct (tile_storage input _ _ _ _ _ _ Hsh Hc Hkh Hkw)
    as (tiled & Hrun & Hst).
  exists tiled. split; [done|]. rewrite Hst.
  transitivity ((fun o => default zero (storage input !! o))
                  <$> seq 0 (length (storage input)));
    [|apply list_tabulate_id].
  assert (Hlen : length (storage input)
                 = prod [batch; channel; height / kh; width / kw; kh; kw]).
  { destruct Hc as [_ ->]. rewrite Hsh. simpl. lia. }
  apply Forall_fmap_ext, Forall_seq. intros o [_ Ho]. simpl in Ho.
  rewrite Hlen in Ho.
  destruct (window_order_spec _ _ _ _ _ _ _ Ho)
    as (b & c & i & j & r & s & Hidx & Hb & ->).
  pose proof (position_to_index _ _ Ho) as Hpos. rewrite Hidx in Hpos.
  unfold in_bounds in Hb.
  apply Forall2_cons_1 in Hb as [_ Hb]. apply Forall2_cons_1 in Hb as [_ Hb].
  apply Forall2_cons_1 in Hb as [_ Hb]. apply Forall2_cons_1 in Hb as [Hr Hb].
  apply Forall2_cons_1 in Hb as [Hj _].
  assert (Hsame : index_to_position [b; c; i; r; j; s]
                    (strides_from_shape
                       [batch; channel; height / kh; kh; width / kw; kw])
                  = o).
  { rewrite <- Hpos. destruct Hcase as [E|E]; rewrite E in *; simpl; nia. }
  by rewrite Hsame.
Qed.

End StorageClaims.

(** ** More on [dropout] *)

Section DropoutExtras.
Context {F : Type} `{SF : Scalar F}.
Implicit Types (t x : Tensor F).

(** The masking path at every index of the input's shape, in terms of
    the draws of the generator. *)
Lemma dropout_mask_run x p (g : RNG F) :
  eqb p zero = false -> eqb p one = false ->
  exists out,
    dropout x p true false g = (Ok out, (rand (shape x) g).2) /\
    shape out = shape x /\
    forall index,
      in_bounds index (shape x) ->
      get out index
      = Some (div (mul (read x index)
                       (if ltb p (draw g (consumed g
                                          + index_to_position index
                                              (strides_from_shape (shape x))))
                        then one else zero))
                  (sub one p)).
Proof.
  intros H0 H1. unfold dropout. cbn [orb negb]. rewrite H0, H1.
  destruct (rand (shape x) g) as [noise g'] eqn:Hrand.
  assert (Hnoise : noise = (rand (shape x) g).1) by (by rewrite Hrand).
  assert (Hns : shape noise = shape x) by (by rewrite Hnoise).
  unfold tzip. rewrite bool_decide_true by exact (eq_sym Hns).
  change (assert true) with (Ok tt). rewrite !bind_Ok.
  eexists. split; [done|]. split; [done|].
  intros index Hb.
  unfold truediv at 1. rewrite get_tmap by done.
  do 2 f_equal.
  erewrite (get_read _ index); [|unfold size; by apply get_tabulate].
  change (shape (gt noise p)) with (shape noise).
  rewrite Hns, !to_index_position by done. f_equal.
  erewrite (get_read (gt noise p)); [|apply get_tmap; by rewrite Hns].
  erewrite (get_read noise); [done|].
  rewrite Hnoise. by apply get_rand.
Qed.

(** X8: [dropout] never fails and never changes the shape: whatever
    [p], [train] and [ignore] are (no value of [p] is rejected), it
    returns a tensor of the input's shape, and it takes from the
    generator either nothing or exactly one draw per element. *)
Theorem dropout_never_fails x p train ignore (g : RNG F) :
  exists out,
    (dropout x p train ignore g).1 = Ok out /\
    shape out = shape x /\
    draw (dropout x p train ignore g).2 = draw g /\
    (consumed (dropout x p train ignore g).2 = consumed g \/
     consumed (dropout x p train ignore g).2 = consumed g + size x).
Proof.
  unfold dropout.
  destruct (ignore || negb train || eqb p zero) eqn:Hguard.
  { exists x. repeat split; by left. }
  destruct (eqb p one) eqn:H1.
  { exists (zeros (shape x)). repeat split; by left. }
  clear Hguard H1. unfold rand, tzip. cbv beta iota zeta.
  rewrite bool_decide_true by done.
  change (assert true) with (Ok tt). rewrite !bind_Ok.
  eexists. cbn [fst snd draw consumed]. repeat split. by right.
Qed.

(** X9: a probability of 1 or more keeps nothing.  For [p = 1.0] the
    fast path returns zeros; for [p > 1], which is not rejected, no
    draw of at most 1 exceeds [p], so the mask is 0 everywhere and
    every output element is the input's element times 0, divided by
    [1 - p]: no element of the input is passed on unmasked. *)
Theorem dropout_drops_everything `{!OrderLaws F} x p (g : RNG F) :
  leb one p = true ->
  eqb p zero = false ->
  (forall k, leb (draw g k) one = true) ->
  exists out,
    (dropout x p true false g).1 = Ok out /\
    shape out = shape x /\
    forall index,
      in_bounds index (shape x) ->
      get out index
      = Some (if eqb p one then zero
              else div (mul (read x index) zero) (sub one p)).
Proof.
  intros Hp H0 Hnoise.
  destruct (eqb p one) eqn:H1.
  - exists (zeros (shape x)). unfold dropout. cbn [orb negb].
    rewrite H0, H1. split; [done|]. split; [done|]. apply get_zeros.
  - destruct (dropout_mask_run x p g H0 H1) as (out & Hrun & Hshape & Hel).
    exists out. rewrite Hrun. split; [done|]. split; [done|].
    intros index Hb. rewrite (Hel index Hb).
    assert (Hmask : forall k, ltb p (draw g k) = false).
    { intros k. destruct (ltb p (draw g k)) eqn:Hlt; [|done].
      pose proof (ltb_leb_trans _ _ _ Hlt (Hnoise k)) as Hlt1.
      by rewrite (leb_ltb _ _ Hp) in Hlt1. }
    by rewrite Hmask.
Qed.

End DropoutExtras.

(** ** Locality of average pooling *)

Section Locality.
Context {F : Type} `{SF : Scalar F}.
Implicit Types (t x y : Tensor F).

(** X10: an output element of [avgpool2d] depends on its own window
    only: two inputs of the same shape that agree on the window of
    (b, c, i, j) have the same pooled element there, whatever they hold
    elsewhere. *)
Theorem avgpool2d_local x y batch channel height width kh kw b c i j :
  shape x = [batch; channel; height; width] ->
  shape y = [batch; channel; height; width] ->
  contiguous_tensor x -> contiguous_tensor y ->
  0 < kh -> 0 < kw ->
  height mod kh = 0 -> width mod kw = 0 ->
  b < batch -> c < channel -> i < height / kh -> j < width / kw ->
  window x (kh, kw) b c i j = window y (kh, kw) b c i j ->
  exists ox oy v,
    avgpool2d x (kh, kw) = Ok ox /\
    avgpool2d y (kh, kw) = Ok oy /\
    get ox [b; c; i; j; 0] = Some v /\
    get oy [b; c; i; j; 0] = Some v.
Proof.
  intros Hx Hy Hcx Hcy Hkh Hkw Hh Hw Hb Hc Hi Hj Hwin.
  rewrite (divisible_exact height kh), (divisible_exact width kw) in Hx, Hy
    by done.
  destruct (avgpool2d_run x _ _ _ _ _ _ Hx Hcx Hkh Hkw)
    as (ox & Hrx & _ & Hex).
  destruct (avgpool2d_run y _ _ _ _ _ _ Hy Hcy Hkh Hkw)
    as (oy & Hry & _ & Hey).
  destruct (Hex b c i j) as (wx & Hwx & Hgx); try done.
  destruct (Hey b c i j) as (wy & Hwy & Hgy); try done.
  rewrite Hwin, Hwy in Hwx.
  apply (inj (fmap Some)) in Hwx. subst wy.
  by exists ox, oy, (div (foldl add zero wx) (of_nat (kh * kw))).
Qed.

End Locality.

(** ** The further properties at concrete inputs *)

Lemma tile_returns_only_when_valid_witness :
  exists tiled batch channel,
    tile (image [1; 1; 4; 4]) (2, 2) = Ok (tiled, 2, 2) /\
    shape (image [1; 1; 4; 4]) = [batch; channel; 2 * 2; 2 * 2] /\
    shape tiled = [batch; channel; 2; 2; 2 * 2].
Proof.
  destruct (tile_run (image [1; 1; 4; 4]) 1 1 2 2 2 2)
    as (tiled & Hrun & _);
    [reflexivity | apply image_contiguous | lia | lia |].
  destruct (tile_returns_only_when_valid _ 2 2 _ _ _
              ltac:(lia) ltac:(lia) Hrun)
    as (b & c & Hvalid).
  exists tiled, b, c. split; [exact Hrun | exact Hvalid].
Defined.

Lemma tile_zero_kernel_witness :
  tile (image [1; 1; 4; 4]) (0, 2) = Err ZeroDivisionError /\
  tile (image [1; 1; 4; 4]) (2, 0) = Err ZeroDivisionError /\
  tile (image [1; 1; 3; 4]) (2, 0) = Err AssertionError.
Proof.
  split; [|split].
  - exact (proj1 (tile_zero_kernel (image [1; 1; 4; 4]) 1 1 4 4 0 2 eq_refl)
             eq_refl).
  - apply (proj1 (proj2
      (tile_zero_kernel (image [1; 1; 4; 4]) 1 1 4 4 2 0 eq_refl)));
      [lia | reflexivity | reflexivity].
  - apply (proj2 (proj2
      (tile_zero_kernel (image [1; 1; 3; 4]) 1 1 3 4 2 0 eq_refl)));
      [lia | discriminate | reflexivity].
Defined.

Lemma pooling_needs_4d_witness :
  tile (image [4; 4]) (2, 2) = Err ValueError /\
  avgpool2d (image [4; 4]) (2, 2) = Err ValueError.
Proof.
  apply (pooling_needs_4d (image [4; 4]) (2, 2)). discriminate.
Defined.

Lemma avgpool2d_twice_witness :
  exists out,
    avgpool2d (image [1; 1; 4; 4]) (2, 2) = Ok out /\
    tile out (1, 1) = Err ValueError /\
    avgpool2d out (1, 1) = Err ValueError.
Proof.
  destruct (avgpool2d_run (image [1; 1; 4; 4]) 1 1 2 2 2 2)
    as (out & Hrun & _);
    [reflexivity | apply image_contiguous | lia | lia |].
  exists out. split; [exact Hrun|].
  exact (avgpool2d_twice _ _ _ (1, 1) Hrun).
Defined.

Lemma tile_permutes_storage_witness :
  exists tiled,
    tile (image [1; 1; 4; 4]) (2, 2) = Ok (tiled, 2, 2) /\
    storage tiled ≡ₚ storage (image [1; 1; 4; 4]).
Proof.
  apply (tile_permutes_storage (image [1; 1; 4; 4]) 1 1 4 4 2 2);
    [reflexivity | apply image_contiguous | lia | lia
    | reflexivity | reflexivity].
Defined.

Lemma tile_keeps_layout_witness :
  (exists tiled,
     tile (image [1; 1; 4; 4]) (1, 2) = Ok (tiled, 4, 2) /\
     storage tiled = storage (image [1; 1; 4; 4])) /\
  (exists tiled,
     tile (image [1; 1; 4; 4]) (2, 4) = Ok (tiled, 2, 1) /\
     storage tiled = storage (image [1; 1; 4; 4])).
Proof.
  split.
  - apply (tile_keeps_layout (image [1; 1; 4; 4]) 1 1 4 4 1 2);
      [reflexivity | apply image_contiguous | lia | lia
      | reflexivity | reflexivity | left; reflexivity].
  - apply (tile_keeps_layout (image [1; 1; 4; 4]) 1 1 4 4 2 4);
      [reflexivity | apply image_contiguous | lia | lia
      | reflexivity | reflexivity | right; reflexivity].
Defined.

Lemma dropout_drops_everything_witness :
  exists out,
    (dropout (image [3]) (Q2Qc (2 # 1)) true false quarters).1 = Ok out /\
    shape out = [3] /\
    forall index,
      in_bounds index [3] ->
      get out index
      = Some (div (mul (read (image [3]) index) zero)
                  (sub one (Q2Qc (2 # 1)))).
Proof.
  destruct (dropout_drops_everything (image [3]) (Q2Qc (2 # 1)) quarters)
    as (out & Hrun & Hshape & Hel).
  - reflexivity.
  - reflexivity.
  - intros k. unfold quarters; cbn [draw]. by destruct (k =? 0).
  - exists out. split; [exact Hrun|]. split; [exact Hshape|].
    intros index Hb. exact (Hel index Hb).
Defined.

(** Dropout with p = 2 on [0, 1, 2]: nothing is kept. *)
Example dropout_two :
  observe (dropout (image [3]) (Q2Qc (2 # 1)) true false quarters).1
  = Some ([3], [0; 0; 0]%Q).
Proof. vm_compute. reflexivity. Qed.

Lemma avgpool2d_local_witness :
  exists ox oy v,
    avgpool2d (image [1; 1; 4; 4]) (2, 2) = Ok ox /\
    avgpool2d corner (2, 2) = Ok oy /\
    get ox [0; 0; 0; 0; 0] = Some v /\
    get oy [0; 0; 0; 0; 0] = Some v.
Proof.
  apply (avgpool2d_local (image [1; 1; 4; 4]) corner 1 1 4 4 2 2 0 0 0 0);
    try reflexivity; try lia.
  - apply image_contiguous.
  - split; reflexivity.
  - apply Nat.div_str_pos. lia.
  - apply Nat.div_str_pos. lia.
Defined.

(** The two inputs of the witness differ, and so do their other pooled
    elements. *)
Example avgpool2d_corner :
  observe (avgpool2d (image [1; 1; 4; 4]) (2, 2))
  = Some ([1; 1; 2; 2; 1], [5 # 2; 9 # 2; 21 # 2; 25 # 2]%Q) /\
  observe (avgpool2d corner (2, 2))
  = Some ([1; 1; 2; 2; 1], [5 # 2; 0; 0; 0]%Q).
Proof. split; vm_compute; reflexivity. Qed.

(** ** Inputs outside the amended claims *)





#[local] Existing Instance float_scalar.


(** The same tensor under [p = 2]: the mask is 0 everywhere, and the
    elements become [inf * 0 / -1] and [3 * 0 / -1], that is NaN and
    the negative zero. *)
Example dropout_two_floats :
  element (dropout unbounded PrimFloat.two true false low_noise).1 [0]
  = Some PrimFloat.nan /\
  element (dropout unbounded PrimFloat.two true false low_noise).1 [1]
  = Some PrimFloat.neg_zero.
Proof. split; vm_compute; reflexivity. Qed.
